(** * watched_dir/main.py: process bootstrap of the folder watcher

    A shallow embedding of [src/watched_dir/main.py].  The module is
    effectful Python: it logs, calls into [DatabaseManager] and
    [FolderWatcher], raises [SystemExit] through [sys.exit], installs signal
    handlers and finally sits in a [while True: time.sleep(1)] loop.  The
    embedding threads an explicit [state] through a small state-and-exception
    monad [M]; the collaborators whose code lives in other modules
    ([database.py], [folder_watcher.py], [config.py]) answer through an
    environment record [Env] that fixes, per call site, whether the call
    returns, raises, or is cut short by a termination signal. *)

From Stdlib Require Import List String ZArith Bool Arith.
Import ListNotations.
Open Scope string_scope.
Open Scope list_scope.

(** ** Python exceptions *)

(** The classes of [Exception] that the collaborators' contracts name. *)
Inductive exc_class : Type :=
  | IOError
  | ConnectionError
  | SchemaError
  | RuntimeError.

(** [SystemExit] and [KeyboardInterrupt] derive from [BaseException] only,
    so an [except Exception] clause lets them through. *)
Inductive exn : Type :=
  | SystemExit (code : Z)
  | KeyboardInterrupt
  | Exception (cls : exc_class) (msg : string).

Definition is_Exception (e : exn) : bool :=
  match e with
  | Exception _ _ => true
  | _ => false
  end.

(** [str(e)] *)
Definition str (e : exn) : string :=
  match e with
  | SystemExit _ => ""
  | KeyboardInterrupt => ""
  | Exception _ msg => msg
  end.

Inductive signum : Type := SIGINT | SIGTERM.

(** ** What the collaborators answer *)

Inductive outcome (A : Type) : Type :=
  | Returns (a : A)
  | Raises (e : exn).
Arguments Returns {A} a.
Arguments Raises {A} e.

(** A call made after the handlers are installed either completes or is cut
    short by a termination signal, in which case [signal_handler] runs at
    that point of the main thread. *)
Inductive reply (A : Type) : Type :=
  | Completes (o : outcome A)
  | Interrupted (s : signum).
Arguments Completes {A} o.
Arguments Interrupted {A} s.

Record Env : Type := mkEnv {
  (* setup_logging *)
  config_new : outcome unit;          (* Config() and its LOG_FILE *)
  log_dir_exists : bool;              (* os.path.exists(log_dir) *)
  os_makedirs : outcome unit;         (* os.makedirs(log_dir) *)
  logging_basicConfig : outcome unit; (* logging.basicConfig(...), with the
                                         level lookup and the handlers *)
  (* DatabaseManager *)
  db_new : reply unit;                (* DatabaseManager() *)
  db_connect : reply bool;            (* truth value of connect() *)
  db_create_all_tables : reply bool;  (* truth value of create_all_tables() *)
  db_disconnect : reply unit;
  (* FolderWatcher *)
  watcher_new : reply unit;           (* FolderWatcher() *)
  setup_folders : reply unit;
  process_existing_files : reply unit;
  start_watching : reply unit;
  stop_watching : outcome unit;       (* called from the handler itself *)
  (* successive time.sleep(1) calls of the idle loop; when the list is used
     up the process is still idling *)
  sleeps : list (reply unit)
}.

(** ** Observable events and process state *)

Inductive op : Type :=
  | OpConfig | OpMakedirs | OpBasicConfig
  | OpDbNew | OpConnect | OpCreateAllTables | OpDisconnect
  | OpWatcherNew | OpSetupFolders | OpProcessExistingFiles
  | OpStartWatching | OpStopWatching
  | OpSleep.

Inductive level : Type := INFO | ERROR.

Inductive event : Type :=
  | Log (l : level) (msg : string)
  | Install (s : signum)               (* signal.signal(s, signal_handler) *)
  | Call (o : op)
  | Done (o : op)
  | Failed (o : op) (e : exn)
  | Signal (s : signum).               (* s delivered to the main thread *)

(** Modelled from the spec: the lifecycle state of the Directory Watcher
    of [folder_watcher.py], section 4.4:
    [stopped -> sweeping -> watching -> stopped]. *)
Inductive wstate : Type := stopped | sweeping | watching.

Record state : Type := mkState {
  watcher : option wstate;   (* the module global [watcher], once bound *)
  db_connected : bool;       (* the startup DatabaseManager's connection *)
  trace : list event
}.

Definition initial : state :=
  {| watcher := None; db_connected := false; trace := [] |}.

Definition emit (e : event) (st : state) : state :=
  {| watcher := watcher st; db_connected := db_connected st;
     trace := trace st ++ [e] |}.

Definition set_watcher (w : option wstate) (st : state) : state :=
  {| watcher := w; db_connected := db_connected st; trace := trace st |}.

Definition set_connected (b : bool) (st : state) : state :=
  {| watcher := watcher st; db_connected := b; trace := trace st |}.

(** ** The monad *)

Inductive res (A : Type) : Type :=
  | Ret (a : A)
  | Raise (e : exn)
  | Idling.          (* inside the sleep loop when the observation ends *)
Arguments Ret {A} a.
Arguments Raise {A} e.
Arguments Idling {A}.

Definition M (A : Type) : Type := state -> state * res A.

Definition ret {A} (a : A) : M A := fun st => (st, Ret a).

Definition bind {A B} (m : M A) (k : A -> M B) : M B :=
  fun st =>
    match m st with
    | (st1, Ret a) => k a st1
    | (st1, Raise e) => (st1, Raise e)
    | (st1, Idling) => (st1, Idling)
    end.

Declare Scope py_scope.
Delimit Scope py_scope with py.
Notation "x <- c1 ;; c2" := (bind c1 (fun x => c2))
  (at level 100, c1 at next level, right associativity) : py_scope.
Notation "c1 ;; c2" := (bind c1 (fun _ => c2))
  (at level 100, right associativity) : py_scope.
Open Scope py_scope.

Definition raise {A} (e : exn) : M A := fun st => (st, Raise e).

(** [sys.exit(code)] raises [SystemExit(code)]. *)
Definition sys_exit {A} (code : Z) : M A := raise (SystemExit code).

(** [try: body / except ...: handler]; [handler e = None] when no clause
    matches [e], which then keeps propagating.  An exception raised inside a
    handler is not offered to the sibling clauses. *)
Definition try_except {A} (body : M A) (handler : exn -> option (M A)) : M A :=
  fun st =>
    match body st with
    | (st1, Raise e) =>
        match handler e with
        | Some h => h st1
        | None => (st1, Raise e)
        end
    | other => other
    end.

(** [try: body / finally: fin]: [fin] runs however [body] ends, and what
    [fin] raises replaces the pending return value or exception. *)
Definition try_finally {A} (body : M A) (fin : M unit) : M A :=
  fun st =>
    match body st with
    | (st1, Idling) => (st1, Idling)
    | (st1, r) =>
        match fin st1 with
        | (st2, Ret _) => (st2, r)
        | (st2, Raise e) => (st2, Raise e)
        | (st2, Idling) => (st2, Idling)
        end
    end.

Definition logger (l : level) (msg : string) : M unit :=
  fun st => (emit (Log l msg) st, Ret tt).

(** ** Effects of the collaborators on the state *)

(** Modelled from the spec: Storage Gateway, section 4.1.  [connect()]
    establishes the connection when it succeeds, [disconnect()] releases it
    and [createAllTables()] leaves it as it is. *)
Definition connect_effect (ok : bool) (st : state) : state :=
  if ok then set_connected true st else st.

Definition disconnect_effect (_ : unit) (st : state) : state :=
  set_connected false st.

(** Modelled from the spec: Directory Watcher, section 4.4.
    [processExistingFiles()] takes [stopped] to [sweeping],
    [startWatching()] takes [sweeping] or [stopped] to [watching],
    [stopWatching()] takes [watching] to [stopped]; [setupFolders()] leaves
    the lifecycle state alone. *)
Definition sweep_transition (w : wstate) : wstate :=
  match w with
  | stopped => sweeping
  | other => other
  end.

Definition start_transition (w : wstate) : wstate :=
  match w with
  | stopped | sweeping => watching
  | watching => watching
  end.

Definition stop_transition (w : wstate) : wstate :=
  match w with
  | watching => stopped
  | other => other
  end.

Definition on_watcher (f : wstate -> wstate) (_ : unit) (st : state) : state :=
  set_watcher (option_map f (watcher st)) st.

Definition no_effect {A} (_ : A) (st : state) : state := st.

(** ** main.py *)

Section Main.

Variable env : Env.

(** A call that cannot be interrupted by our handlers: those of
    [setup_logging], made before the handlers are installed, and the one
    made by the handler itself. *)
Definition invoke {A} (o : op) (r : outcome A) (effect : A -> state -> state)
  : M A :=
  fun st =>
    let st := emit (Call o) st in
    match r with
    | Returns a => (emit (Done o) (effect a st), Ret a)
    | Raises e => (emit (Failed o e) st, Raise e)
    end.

(** [def signal_handler(signum, frame)].  It never returns: it ends in
    [sys.exit(0)] unless [stop_watching] raises first. *)
Definition signal_handler {A} (sig : option signum) : M A :=
  logger INFO "Shutdown signal received, stopping folder watcher..." ;;
  (fun st =>
     match watcher st with          (* if 'watcher' in globals(): *)
     | Some _ =>
         invoke OpStopWatching (stop_watching env) (on_watcher stop_transition) st
     | None => ret tt st
     end) ;;
  sys_exit 0.

(** A call made while the handlers are installed. *)
Definition call {A} (o : op) (r : reply A) (effect : A -> state -> state)
  : M A :=
  match r with
  | Completes out => invoke o out effect
  | Interrupted s =>
      fun st => signal_handler (Some s) (emit (Signal s) (emit (Call o) st))
  end.

(** [signal.signal(s, signal_handler)] *)
Definition signal_signal (s : signum) : M unit :=
  fun st => (emit (Install s) st, Ret tt).

(** [def setup_logging()] *)
Definition setup_logging : M unit :=
  invoke OpConfig (config_new env) no_effect ;;
  (if negb (log_dir_exists env)
   then invoke OpMakedirs (os_makedirs env) no_effect
   else ret tt) ;;
  invoke OpBasicConfig (logging_basicConfig env) no_effect.

(** [def initialize_database()] *)
Definition initialize_database : M bool :=
  logger INFO "Initializing database tables..." ;;
  call OpDbNew (db_new env) no_effect ;;
  try_finally
    (try_except
       (connected <- call OpConnect (db_connect env) connect_effect ;;
        if negb connected then
          logger ERROR "Failed to connect to database for initialization" ;;
          ret false
        else
          success <- call OpCreateAllTables (db_create_all_tables env)
                       no_effect ;;
          (if success
           then logger INFO "Database initialization completed successfully"
           else logger ERROR "Database initialization failed") ;;
          ret success)
       (fun e =>
          if is_Exception e then
            Some (logger ERROR ("Database initialization error: " ++ str e)%string ;;
                  ret false)
          else None))
    (call OpDisconnect (db_disconnect env) disconnect_effect).

(** [while True: time.sleep(1)] over the observed sleeps. *)
Fixpoint idle_loop {A} (ticks : list (reply unit)) : M A :=
  match ticks with
  | [] => fun st => (st, Idling)
  | t :: rest => call OpSleep t no_effect ;; idle_loop rest
  end.

(** The body of the [try] statement of [main], up to the idle loop. *)
Definition main_startup : M unit :=
  ok <- initialize_database ;;
  (if negb ok then
     logger ERROR "Database initialization failed. Exiting..." ;;
     sys_exit 1
   else ret tt) ;;
  (* global watcher; watcher = FolderWatcher() *)
  call OpWatcherNew (watcher_new env) (fun _ => set_watcher (Some stopped)) ;;
  call OpSetupFolders (setup_folders env) no_effect ;;
  call OpProcessExistingFiles (process_existing_files env)
    (on_watcher sweep_transition) ;;
  call OpStartWatching (start_watching env) (on_watcher start_transition) ;;
  logger INFO "Folder watcher is running. Press Ctrl+C to stop.".

(** The body of the [try] statement of [main]. *)
Definition main_try : M unit :=
  main_startup ;;
  idle_loop (sleeps env).

(** The [except] clauses of [main]. *)
Definition main_except (e : exn) : option (M unit) :=
  match e with
  | KeyboardInterrupt =>
      Some (logger INFO "Keyboard interrupt received" ;; signal_handler None)
  | Exception _ _ =>
      Some (logger ERROR ("Unexpected error: " ++ str e)%string ;; sys_exit 1)
  | SystemExit _ => None
  end.

(** What [main] does before it enters its [try] statement. *)
Definition main_preamble : M unit :=
  setup_logging ;;
  logger INFO "Starting Employee Management System - Folder Watcher" ;;
  signal_signal SIGINT ;;
  signal_signal SIGTERM.

(** [def main()] *)
Definition main : M unit :=
  main_preamble ;;
  try_except main_try main_except.

End Main.

(** ** The process *)

Inductive status : Type :=
  | Exited (code : Z)
  | Running.          (* still in the idle loop *)

(** What the interpreter does with whatever leaves [main]: [SystemExit(n)]
    ends the process with status [n], any other exception prints a traceback
    and ends it with status 1 (130 for [KeyboardInterrupt]). *)
Definition exit_status (r : res unit) : status :=
  match r with
  | Ret _ => Exited 0
  | Raise (SystemExit n) => Exited n
  | Raise KeyboardInterrupt => Exited 130
  | Raise (Exception _ _) => Exited 1
  | Idling => Running
  end.

(** [if __name__ == "__main__": main()] *)
Definition run (env : Env) : state * status :=
  let (st, r) := main env initial in (st, exit_status r).

Definition final (env : Env) : state := fst (run env).
Definition outcome_of (env : Env) : status := snd (run env).
Definition events (env : Env) : list event := trace (final env).

(** The state in which [main] enters its [try] statement, the state in
    which it enters the idle loop, and the state after [n] sleeps that
    returned. *)
Definition ready (env : Env) : state := fst (main_preamble env initial).

Definition started (env : Env) : state := fst (main_startup env (ready env)).

Fixpoint slept (n : nat) (st : state) : state :=
  match n with
  | O => st
  | S k => slept k (emit (Done OpSleep) (emit (Call OpSleep) st))
  end.

(** ** Observations on environments and traces *)

Definition op_eqb (a b : op) : bool :=
  match a, b with
  | OpConfig, OpConfig | OpMakedirs, OpMakedirs
  | OpBasicConfig, OpBasicConfig | OpDbNew, OpDbNew
  | OpConnect, OpConnect | OpCreateAllTables, OpCreateAllTables
  | OpDisconnect, OpDisconnect | OpWatcherNew, OpWatcherNew
  | OpSetupFolders, OpSetupFolders
  | OpProcessExistingFiles, OpProcessExistingFiles
  | OpStartWatching, OpStartWatching | OpStopWatching, OpStopWatching
  | OpSleep, OpSleep => true
  | _, _ => false
  end.

(** [o] was called somewhere in the trace. *)
Definition called (o : op) (tr : list event) : bool :=
  existsb (fun e => match e with Call o' => op_eqb o o' | _ => false end) tr.

Definition error_logged (tr : list event) : bool :=
  existsb (fun e => match e with Log ERROR _ => true | _ => false end) tr.

(** The events that follow the first call of [o]. *)
Fixpoint after_call (o : op) (tr : list event) : option (list event) :=
  match tr with
  | [] => None
  | Call o' :: rest => if op_eqb o o' then Some rest else after_call o rest
  | _ :: rest => after_call o rest
  end.

(** What a run added to the trace it started from. *)
Definition new_events (st st' : state) : list event :=
  skipn (List.length (trace st)) (trace st').

Definition returned {A} (o : outcome A) : bool :=
  match o with
  | Returns _ => true
  | Raises _ => false
  end.

Definition completed {A} (r : reply A) : bool :=
  match r with
  | Completes o => returned o
  | Interrupted _ => false
  end.

(** The call returned the truth value [b]. *)
Definition yields (r : reply bool) (b : bool) : bool :=
  match r with
  | Completes (Returns x) => Bool.eqb x b
  | _ => false
  end.

(** The call returned a false value or raised an [Exception]. *)
Definition fails (r : reply bool) : bool :=
  match r with
  | Completes (Returns x) => negb x
  | Completes (Raises e) => is_Exception e
  | Interrupted _ => false
  end.

(** The call returned or raised an [Exception]: no signal, no
    [BaseException] from inside it. *)
Definition ordinary {A} (r : reply A) : bool :=
  match r with
  | Completes (Returns _) => true
  | Completes (Raises e) => is_Exception e
  | Interrupted _ => false
  end.

Definition logging_ok (env : Env) : bool :=
  returned (config_new env)
  && (log_dir_exists env || returned (os_makedirs env))
  && returned (logging_basicConfig env).

(** Connecting or creating the schema fails. *)
Definition database_fails (env : Env) : bool :=
  completed (db_new env)
  && (fails (db_connect env)
      || (yields (db_connect env) true && fails (db_create_all_tables env))).

Definition database_ok (env : Env) : bool :=
  completed (db_new env)
  && yields (db_connect env) true
  && yields (db_create_all_tables env) true
  && completed (db_disconnect env).

(** Everything up to and including [start_watching] goes through. *)
Definition startup_ok (env : Env) : bool :=
  logging_ok env && database_ok env
  && completed (watcher_new env) && completed (setup_folders env)
  && completed (process_existing_files env)
  && completed (start_watching env).

(** [time.sleep(1)] returned. *)
Definition quiet : reply unit := Completes (Returns tt).

Definition is_quiet (r : reply unit) : bool := completed r.

(** Events of the idle wait and of the shutdown it ends in: sleeping, a
    signal, log lines and the handler's [stop_watching]. *)
Definition idle_only (e : event) : bool :=
  match e with
  | Call o | Done o | Failed o _ =>
      match o with
      | OpSleep | OpStopWatching => true
      | _ => false
      end
  | Log _ _ | Signal _ => true
  | Install _ => false
  end.

(** The operations other than the idle wait and the shutdown. *)
Definition per_file_or_startup (o : op) : bool :=
  match o with
  | OpSleep | OpStopWatching => false
  | _ => true
  end.

(** [disconnect()] was called exactly once and no call to the database
    manager follows it. *)
Definition disconnected_last (tr : list event) : bool :=
  match after_call OpDisconnect tr with
  | Some post =>
      negb (called OpDbNew post || called OpConnect post
            || called OpCreateAllTables post || called OpDisconnect post)
  | None => false
  end.

(** ** Example environments *)

(** Everything goes through; the idle loop sees [ticks]. *)
Definition smooth (ticks : list (reply unit)) : Env :=
  {| config_new := Returns tt;
     log_dir_exists := false;
     os_makedirs := Returns tt;
     logging_basicConfig := Returns tt;
     db_new := Completes (Returns tt);
     db_connect := Completes (Returns true);
     db_create_all_tables := Completes (Returns true);
     db_disconnect := Completes (Returns tt);
     watcher_new := Completes (Returns tt);
     setup_folders := Completes (Returns tt);
     process_existing_files := Completes (Returns tt);
     start_watching := Completes (Returns tt);
     stop_watching := Returns tt;
     sleeps := ticks |}.

(** The database refuses the connection. *)
Definition refused : Env :=
  {| config_new := Returns tt;
     log_dir_exists := true;
     os_makedirs := Returns tt;
     logging_basicConfig := Returns tt;
     db_new := Completes (Returns tt);
     db_connect :=
       Completes (Raises (Exception ConnectionError "connection refused"));
     db_create_all_tables := Completes (Returns true);
     db_disconnect := Completes (Returns tt);
     watcher_new := Completes (Returns tt);
     setup_folders := Completes (Returns tt);
     process_existing_files := Completes (Returns tt);
     start_watching := Completes (Returns tt);
     stop_watching := Returns tt;
     sleeps := [] |}.

(** The watched directory cannot be created. *)
Definition read_only : Env :=
  {| config_new := Returns tt;
     log_dir_exists := true;
     os_makedirs := Returns tt;
     logging_basicConfig := Returns tt;
     db_new := Completes (Returns tt);
     db_connect := Completes (Returns true);
     db_create_all_tables := Completes (Returns true);
     db_disconnect := Completes (Returns tt);
     watcher_new := Completes (Returns tt);
     setup_folders :=
       Completes (Raises (Exception IOError "permission denied"));
     process_existing_files := Completes (Returns tt);
     start_watching := Completes (Returns tt);
     stop_watching := Returns tt;
     sleeps := [] |}.

(** ** Further observations *)

Definition signalled (tr : list event) : bool :=
  existsb (fun e => match e with Signal _ => true | _ => false end) tr.

Definition anything_logged (tr : list event) : bool :=
  existsb (fun e => match e with Log _ _ => true | _ => false end) tr.

Definition handler_installed (tr : list event) : bool :=
  existsb (fun e => match e with Install _ => true | _ => false end) tr.

(** [o] returned somewhere in the trace. *)
Definition finished (o : op) (tr : list event) : bool :=
  existsb (fun e => match e with Done o' => op_eqb o o' | _ => false end) tr.

(** A collaborator that raises nothing but [Exception]s. *)
Definition tame_outcome {A} (o : outcome A) : bool :=
  match o with
  | Returns _ => true
  | Raises e => is_Exception e
  end.



(** [setup_logging] raises an [Exception]. *)
Definition logging_fails (env : Env) : bool :=
  negb (logging_ok env)
  && tame_outcome (config_new env) && tame_outcome (os_makedirs env)
  && tame_outcome (logging_basicConfig env).

(** A termination signal arrives during folder setup, the sweep or
    [start_watching], everything before having gone through. *)
Definition interrupted_after_binding (env : Env) : bool :=
  logging_ok env && database_ok env && completed (watcher_new env)
  && match setup_folders env with
     | Interrupted _ => true
     | Completes (Returns _) =>
         match process_existing_files env with
         | Interrupted _ => true
         | Completes (Returns _) =>
             match start_watching env with
             | Interrupted _ => true
             | Completes _ => false
             end
         | Completes (Raises _) => false
         end
     | Completes (Raises _) => false
     end.

(** The calls into [DatabaseManager] and [FolderWatcher] and the idle
    sleep: what runs inside the [try] statement of [main]. *)
Definition guarded_op (o : op) : bool :=
  match o with
  | OpConfig | OpMakedirs | OpBasicConfig => false
  | _ => true
  end.

(** Every guarded call of the trace comes after both handlers were
    installed; [int] and [term] say which are installed so far. *)
Fixpoint handlers_first (int term : bool) (tr : list event) : bool :=
  match tr with
  | [] => true
  | Install SIGINT :: rest => handlers_first true term rest
  | Install SIGTERM :: rest => handlers_first int true rest
  | Call o :: rest =>
      (negb (guarded_op o) || (int && term)) && handlers_first int term rest
  | _ :: rest => handlers_first int term rest
  end.

(** [disconnect()] fails after the tables were created. *)
Definition no_goodbye : Env :=
  {| config_new := Returns tt;
     log_dir_exists := true;
     os_makedirs := Returns tt;
     logging_basicConfig := Returns tt;
     db_new := Completes (Returns tt);
     db_connect := Completes (Returns true);
     db_create_all_tables := Completes (Returns true);
     db_disconnect :=
       Completes (Raises (Exception ConnectionError "connection lost"));
     watcher_new := Completes (Returns tt);
     setup_folders := Completes (Returns tt);
     process_existing_files := Completes (Returns tt);
     start_watching := Completes (Returns tt);
     stop_watching := Returns tt;
     sleeps := [] |}.

(** ** Further example environments *)

(** As [smooth], but [stop_watching] raises. *)
Definition stubborn (ticks : list (reply unit)) : Env :=
  {| config_new := Returns tt;
     log_dir_exists := true;
     os_makedirs := Returns tt;
     logging_basicConfig := Returns tt;
     db_new := Completes (Returns tt);
     db_connect := Completes (Returns true);
     db_create_all_tables := Completes (Returns true);
     db_disconnect := Completes (Returns tt);
     watcher_new := Completes (Returns tt);
     setup_folders := Completes (Returns tt);
     process_existing_files := Completes (Returns tt);
     start_watching := Completes (Returns tt);
     stop_watching := Raises (Exception RuntimeError "cannot join thread");
     sleeps := ticks |}.

(** The log directory is missing and cannot be created. *)
Definition no_log_dir : Env :=
  {| config_new := Returns tt;
     log_dir_exists := false;
     os_makedirs := Raises (Exception IOError "permission denied");
     logging_basicConfig := Returns tt;
     db_new := Completes (Returns tt);
     db_connect := Completes (Returns true);
     db_create_all_tables := Completes (Returns true);
     db_disconnect := Completes (Returns tt);
     watcher_new := Completes (Returns tt);
     setup_folders := Completes (Returns tt);
     process_existing_files := Completes (Returns tt);
     start_watching := Completes (Returns tt);
     stop_watching := Returns tt;
     sleeps := [] |}.

(** SIGTERM arrives during the sweep. *)
Definition interrupted_sweep : Env :=
  {| config_new := Returns tt;
     log_dir_exists := true;
     os_makedirs := Returns tt;
     logging_basicConfig := Returns tt;
     db_new := Completes (Returns tt);
     db_connect := Completes (Returns true);
     db_create_all_tables := Completes (Returns true);
     db_disconnect := Completes (Returns tt);
     watcher_new := Completes (Returns tt);
     setup_folders := Completes (Returns tt);
     process_existing_files := Interrupted SIGTERM;
     start_watching := Completes (Returns tt);
     stop_watching := Returns tt;
     sleeps := [] |}.

(** The schema cannot be created. *)
Definition no_schema : Env :=
  {| config_new := Returns tt;
     log_dir_exists := true;
     os_makedirs := Returns tt;
     logging_basicConfig := Returns tt;
     db_new := Completes (Returns tt);
     db_connect := Completes (Returns true);
     db_create_all_tables := Completes (Returns false);
     db_disconnect := Completes (Returns tt);
     watcher_new := Completes (Returns tt);
     setup_folders := Completes (Returns tt);
     process_existing_files := Completes (Returns tt);
     start_watching := Completes (Returns tt);
     stop_watching := Returns tt;
     sleeps := [] |}.

(** ** The shutdown and the exception policy, as the specification words
    them *)



(** The exception policy of [main] read literally: whenever a call made by
    [main] or below it raised an [Exception], an error was logged and the
    status is 1; whenever one raised [KeyboardInterrupt], the status is
    0. *)
Definition literal_exception_policy (env : Env) : Prop :=
  (forall o cls msg,
     In (Failed o (Exception cls msg)) (events env) ->
     error_logged (events env) = true /\ outcome_of env = Exited 1)
  /\ (forall o,
        In (Failed o KeyboardInterrupt) (events env) ->
        outcome_of env = Exited 0).

(** * The ingestion pipeline

    The sweep and the live watch run inside [FolderWatcher], which
    [main.py] only calls.  The definitions of this module follow sections
    3, 4 and 7 of the specification. *)

Module Pipeline.

(** Modelled from the spec: Record (section 3), format-specific key/value
    fields. *)
Definition record : Type := list (string * string).

(** Modelled from the spec: [ParseError{reason, lineOrOffset}]
    (section 4.2). *)
Record parse_error : Type := mkParseError {
  reason : string;
  lineOrOffset : nat
}.

(** Modelled from the spec: WatchedFile (section 3), identified by its
    path, with its bytes and last-modified time. *)
Record watched_file : Type := mkFile {
  path : string;
  content : string;
  mtime : nat
}.

(** Modelled from the spec: the outcome kept in an IngestionLedger entry
    (section 3). *)
Inductive ledger_outcome : Type :=
  | processed
  | failed (why : string).

(** Modelled from the spec: IngestionLedger entry (section 3): file
    identity (path and fingerprint), outcome and timestamp. *)
Record entry : Type := mkEntry {
  e_path : string;
  e_fingerprint : N;
  e_outcome : ledger_outcome;
  e_at : nat
}.

(** Modelled from the spec: a batch is the set of records parsed from one
    file, committed together (glossary); every record belongs to one
    WatchedFile (section 3). *)
Record batch : Type := mkBatch {
  b_path : string;
  b_fingerprint : N;
  b_records : list record
}.

(** Modelled from the spec: the per-file errors of section 7. *)
Inductive error : Type :=
  | ParseError (e : parse_error)
  | PersistenceError (why : string).

Definition describe (e : error) : string :=
  match e with
  | ParseError pe => reason pe
  | PersistenceError why => why
  end.

(** Modelled from the spec: what the pipeline owns: the ledger, the
    committed batches of the storage, a logical clock for the ledger's
    timestamps, the number of write attempts made so far and the error
    log. *)
Record pstate : Type := mkPState {
  ledger : list entry;
  storage : list batch;
  clock : nat;
  writes : nat;
  errors : list (string * string)      (* file identity and reason *)
}.

Definition empty : pstate :=
  {| ledger := []; storage := []; clock := 0; writes := 0; errors := [] |}.

Definition is_processed (o : ledger_outcome) : bool :=
  match o with
  | processed => true
  | failed _ => false
  end.

Definition about (p : string) (fp : N) (e : entry) : bool :=
  String.eqb (e_path e) p && N.eqb (e_fingerprint e) fp.

Definition from_file (p : string) (fp : N) (b : batch) : bool :=
  String.eqb (b_path b) p && N.eqb (b_fingerprint b) fp.

(** Modelled from the spec: [shouldProcess(path, fingerprint)]
    (section 4.3): true if no ledger entry exists for this exact pair with
    outcome processed. *)
Definition should_process (l : list entry) (p : string) (fp : N) : bool :=
  negb (existsb (fun e => about p fp e && is_processed (e_outcome e)) l).

(** The processed entries of a pair, whether a pair has any entry, and the
    committed sets of records of a pair. *)
Definition processed_entries (l : list entry) (p : string) (fp : N)
  : list entry :=
  filter (fun e => about p fp e && is_processed (e_outcome e)) l.


Definition committed_sets (s : list batch) (p : string) (fp : N)
  : list batch :=
  filter (from_file p fp) s.

(** Modelled from the spec: [markProcessed] and [markFailed]
    (section 4.3) record the outcome in the ledger. *)
Definition mark (p : string) (fp : N) (o : ledger_outcome) (st : pstate)
  : pstate :=
  {| ledger := ledger st ++ [mkEntry p fp o (clock st)];
     storage := storage st;
     clock := S (clock st);
     writes := writes st;
     errors := errors st |}.

Definition mark_processed (p : string) (fp : N) : pstate -> pstate :=
  mark p fp processed.

Definition mark_failed (p : string) (fp : N) (why : string)
  : pstate -> pstate :=
  mark p fp (failed why).

Definition log_error (p : string) (why : string) (st : pstate) : pstate :=
  {| ledger := ledger st; storage := storage st; clock := clock st;
     writes := writes st; errors := errors st ++ [(p, why)] |}.

Section Ingestion.

(** The record format and the fingerprinting algorithm are left open by
    the specification (section 9); the storage answers each write attempt
    by committing ([None]) or by a [PersistenceError]. *)
Variable parse : string -> parse_error + list record.
Variable fingerprint : string -> N.
Variable persist : nat -> option string.

Definition fingerprint_of (f : watched_file) : N := fingerprint (content f).

(** Modelled from the spec: [upsertRecords(records)] (section 4.1): the
    whole batch is committed or nothing is. *)
Definition upsert_records (f : watched_file) (recs : list record)
  (st : pstate) : pstate * (error + unit) :=
  let st1 :=
    {| ledger := ledger st; storage := storage st; clock := clock st;
       writes := S (writes st); errors := errors st |} in
  match persist (writes st) with
  | Some why => (st1, inl (PersistenceError why))
  | None =>
      ({| ledger := ledger st1;
          storage := storage st1 ++ [mkBatch (path f) (fingerprint_of f) recs];
          clock := clock st1; writes := writes st1; errors := errors st1 |},
       inr tt)
  end.

(** Modelled from the spec: the per-file path parse, upsert, markProcessed
    (section 4.4); a parse or persistence error leaves it early. *)
Definition ingest (f : watched_file) (st : pstate) : pstate * (error + unit) :=
  match parse (content f) with
  | inl pe => (st, inl (ParseError pe))
  | inr recs =>
      match upsert_records f recs st with
      | (st1, inl err) => (st1, inl err)
      | (st1, inr _) => (mark_processed (path f) (fingerprint_of f) st1, inr tt)
      end
  end.

(** Modelled from the spec: the file-handling boundary (sections 4.4 and
    7): skip a file that need not be processed; catch a failure of the
    per-file path, log it with the file's identity and reason and mark the
    file failed. *)
Definition handle_file (st : pstate) (f : watched_file) : pstate :=
  if should_process (ledger st) (path f) (fingerprint_of f) then
    match ingest f st with
    | (st1, inr _) => st1
    | (st1, inl err) =>
        mark_failed (path f) (fingerprint_of f) (describe err)
          (log_error (path f) (describe err) st1)
    end
  else st.



(** Submitting a file is handing it to the per-file path. *)
Definition submit (f : watched_file) (st : pstate) : pstate :=
  handle_file st f.


(** Submitting [f] and then [f'] from [st] leaves exactly one committed set
    of records and exactly one processed entry for the pair of [f], and the
    second submission changes nothing. *)
Definition idempotent_on (f f' : watched_file) (st : pstate) : Prop :=
  let st1 := submit f st in
  let st2 := submit f' st1 in
  List.length (committed_sets (storage st2) (path f) (fingerprint_of f)) = 1
  /\ List.length (processed_entries (ledger st2) (path f) (fingerprint_of f))
     = 1
  /\ st2 = st1.

End Ingestion.

(** Modelled from the spec: the ledger invariant of section 3: at most one
    processed entry per (path, fingerprint) pair. *)
Definition ledger_ok (l : list entry) : Prop :=
  forall p fp, List.length (processed_entries l p fp) <= 1.

(** A parser for examples: one record per non-empty file, a parse error
    for an empty one. *)
Definition one_line_parser (bytes : string) : parse_error + list record :=
  match bytes with
  | EmptyString => inl (mkParseError "empty file" 0)
  | _ => inr [[("line", bytes)]]
  end.

Definition length_fingerprint (bytes : string) : N :=
  N.of_nat (String.length bytes).

Definition always_commit (_ : nat) : option string := None.

Definition good_file : watched_file := mkFile "in/a.csv" "alice" 1.
Definition touched_file : watched_file := mkFile "in/a.csv" "alice" 7.
Definition bad_file : watched_file := mkFile "in/b.csv" "" 2.

End Pipeline.

(** * Proofs *)

(** ** Reading the observations back *)

Lemma returned_inv (o : outcome unit) : returned o = true -> o = Returns tt.
Proof. destruct o as [[]|e]; [reflexivity | discriminate]. Qed.

Lemma completed_inv (r : reply unit) :
  completed r = true -> r = Completes (Returns tt).
Proof. destruct r as [[[]|e]|s]; [reflexivity | discriminate ..]. Qed.

Lemma yields_inv (r : reply bool) (b : bool) :
  yields r b = true -> r = Completes (Returns b).
Proof.
  destruct r as [[x|e]|s]; cbn; try discriminate.
  intros H. apply Bool.eqb_prop in H. now subst.
Qed.

Lemma fails_inv (r : reply bool) :
  fails r = true ->
  r = Completes (Returns false)
  \/ exists cls msg, r = Completes (Raises (Exception cls msg)).
Proof.
  destruct r as [[[]|[c| |cls msg]]|s]; cbn; try discriminate; intros _.
  - now left.
  - right. now exists cls, msg.
Qed.

Lemma ordinary_inv (r : reply unit) :
  ordinary r = true ->
  r = Completes (Returns tt)
  \/ exists cls msg, r = Completes (Raises (Exception cls msg)).
Proof.
  destruct r as [[[]|[c| |cls msg]]|s]; cbn; try discriminate; intros _.
  - now left.
  - right. now exists cls, msg.
Qed.

Lemma logging_ok_inv env :
  logging_ok env = true ->
  config_new env = Returns tt
  /\ (log_dir_exists env = true \/
      log_dir_exists env = false /\ os_makedirs env = Returns tt)
  /\ logging_basicConfig env = Returns tt.
Proof.
  unfold logging_ok. intros H.
  apply andb_true_iff in H as [H Hbc]. apply andb_true_iff in H as [Hcfg Hdir].
  repeat split; auto using returned_inv.
  destruct (log_dir_exists env); [now left | right].
  split; [reflexivity | now apply returned_inv].
Qed.

Lemma database_ok_inv env :
  database_ok env = true ->
  db_new env = Completes (Returns tt)
  /\ db_connect env = Completes (Returns true)
  /\ db_create_all_tables env = Completes (Returns true)
  /\ db_disconnect env = Completes (Returns tt).
Proof.
  unfold database_ok. intros H.
  apply andb_true_iff in H as [H Hdis]. apply andb_true_iff in H as [H Htab].
  apply andb_true_iff in H as [Hnew Hcon].
  repeat split; auto using completed_inv, yields_inv.
Qed.

Lemma startup_ok_inv env :
  startup_ok env = true ->
  logging_ok env = true /\ database_ok env = true
  /\ watcher_new env = Completes (Returns tt)
  /\ setup_folders env = Completes (Returns tt)
  /\ process_existing_files env = Completes (Returns tt)
  /\ start_watching env = Completes (Returns tt).
Proof.
  unfold startup_ok. intros H.
  apply andb_true_iff in H as [H Hsw]. apply andb_true_iff in H as [H Hpe].
  apply andb_true_iff in H as [H Hsf]. apply andb_true_iff in H as [H Hwn].
  apply andb_true_iff in H as [Hlog Hdb].
  repeat split; auto using completed_inv.
Qed.

(** ** Tactics *)

Ltac split_env env :=
  destruct env as [cfg dir mk bc dbn dbc dbt dbd wn sf pe sw stw sl];
  cbn [config_new log_dir_exists os_makedirs logging_basicConfig db_new
       db_connect db_create_all_tables db_disconnect watcher_new
       setup_folders process_existing_files start_watching stop_watching
       sleeps] in *.

(** Replace the fields of the environment by what the hypotheses say they
    are. *)
Ltac pin :=
  repeat match goal with
  | H : _ /\ _ |- _ => destruct H
  | H : _ \/ _ |- _ => destruct H
  | H : exists _, _ |- _ => destruct H
  | H : logging_ok _ = true |- _ => apply logging_ok_inv in H
  | H : database_ok _ = true |- _ => apply database_ok_inv in H
  | H : startup_ok _ = true |- _ => apply startup_ok_inv in H
  | H : fails _ = true |- _ => apply fails_inv in H
  | H : ordinary _ = true |- _ => apply ordinary_inv in H
  | H : completed _ = true |- _ => apply completed_inv in H
  | H : yields _ _ = true |- _ => apply yields_inv in H
  | H : (_ && _)%bool = true |- _ => apply andb_true_iff in H
  | H : (_ || _)%bool = true |- _ => apply orb_true_iff in H
  end.

(** Case analysis on what the evaluation of the program is stuck on. *)
Ltac branch_goal :=
  match goal with
  | |- context [match ?x with _ => _ end] => is_var x; destruct x; cbv
  end.

Ltac evaluate := cbv; repeat branch_goal.

(** ** Startup failures *)

(** C1: when connecting or creating the schema fails, by a false result
    or by a raised [Exception], the process logs an error, exits with
    status 1 and never reaches the watcher: no folder setup, no sweep, no
    watching, no idle loop. *)
Theorem database_failure_aborts :
  forall env,
    logging_ok env = true ->
    database_fails env = true ->
    ordinary (db_disconnect env) = true ->
    outcome_of env = Exited 1
    /\ error_logged (events env) = true
    /\ called OpWatcherNew (events env) = false
    /\ called OpSetupFolders (events env) = false
    /\ called OpProcessExistingFiles (events env) = false
    /\ called OpStartWatching (events env) = false
    /\ called OpSleep (events env) = false.
Proof.
  intros env Hlog Hdb Hdis. unfold database_fails in Hdb. pin.
  all: split_env env; subst.
  all: evaluate; repeat split; reflexivity.
Qed.

Lemma database_failure_aborts_witness :
  database_fails refused = true
  /\ outcome_of refused = Exited 1
  /\ called OpSetupFolders (events refused) = false.
Proof.
  split; [reflexivity|].
  destruct (database_failure_aborts refused) as (Hout & _ & _ & Hsf & _);
    [reflexivity | reflexivity | reflexivity |].
  split; [exact Hout | exact Hsf].
Defined.


(** C4: when [setup_folders] raises an [IOError] at startup, the error
    is logged and the process exits with status 1, before any sweep or
    watching. *)
Theorem folder_setup_failure_is_fatal :
  forall env msg,
    logging_ok env = true ->
    database_ok env = true ->
    completed (watcher_new env) = true ->
    setup_folders env = Completes (Raises (Exception IOError msg)) ->
    outcome_of env = Exited 1
    /\ In (Log ERROR ("Unexpected error: " ++ msg)%string) (events env)
    /\ called OpProcessExistingFiles (events env) = false
    /\ called OpStartWatching (events env) = false
    /\ called OpSleep (events env) = false.
Proof.
  intros env msg Hlog Hdb Hwn Hsf. pin.
  all: split_env env; subst.
  all: evaluate; repeat split; try reflexivity.
  all: repeat (try (left; reflexivity); right).
Qed.

Lemma folder_setup_failure_is_fatal_witness :
  outcome_of read_only = Exited 1
  /\ In (Log ERROR "Unexpected error: permission denied") (events read_only).
Proof.
  destruct (folder_setup_failure_is_fatal read_only "permission denied")
    as (Hout & Hlog & _);
    [reflexivity | reflexivity | reflexivity | reflexivity |].
  split; [exact Hout | exact Hlog].
Defined.


(** ** initialize_database *)

Lemma skipn_past {A} (l new : list A) : skipn (List.length l) (l ++ new) = new.
Proof. induction l as [|a l IH]; [reflexivity | exact IH]. Qed.

Ltac run_py :=
  cbv beta iota zeta delta
    [initialize_database main_startup main_try main_except main_preamble
     setup_logging signal_handler
     call invoke logger signal_signal sys_exit raise try_finally try_except
     bind ret connect_effect disconnect_effect on_watcher no_effect emit
     set_connected set_watcher watcher db_connected trace fst snd
     option_map negb is_Exception str stop_transition sweep_transition
     start_transition];
  cbn.

Ltac branch_py :=
  match goal with
  | |- context [match ?x with _ => _ end] => is_var x; destruct x; run_py
  end.

(** C8: once the [DatabaseManager] exists, [initialize_database] calls
    [disconnect()] exactly once, after every other call to it, however the
    [try] block ends: connect false, tables false, tables true, an
    exception or a signal; and when that call returns the connection is
    closed. *)
Theorem initialize_database_always_disconnects :
  forall env st,
    completed (db_new env) = true ->
    let st' := fst (initialize_database env st) in
    disconnected_last (new_events st st') = true
    /\ (completed (db_disconnect env) = true -> db_connected st' = false).
Proof.
  intros env [w c tr] Hnew. pin. split_env env. subst dbn.
  unfold new_events. run_py.
  repeat branch_py.
  all: repeat rewrite <- app_assoc.
  all: rewrite skipn_past; cbn.
  all: split; [reflexivity | try reflexivity; try discriminate].
Qed.

Lemma initialize_database_always_disconnects_witness :
  disconnected_last
    (new_events initial (fst (initialize_database refused initial))) = true
  /\ db_connected (fst (initialize_database refused initial)) = false.
Proof.
  destruct (initialize_database_always_disconnects refused initial)
    as [Hlast Hclosed]; [reflexivity|].
  split; [exact Hlast | apply Hclosed; reflexivity].
Defined.


(** ** The signal handler *)

(** C9: with no global [watcher] bound, [signal_handler] logs, skips
    [stop_watching] and raises [SystemExit(0)], which ends the process with
    status 0; so does a signal that arrives while the [DatabaseManager] or
    the [FolderWatcher] is still being constructed. *)
Theorem signal_handler_without_watcher :
  forall env sig st,
    watcher st = None ->
    signal_handler (A := unit) env sig st
    = (emit (Log INFO "Shutdown signal received, stopping folder watcher...") st,
       Raise (SystemExit 0))
    /\ exit_status (snd (signal_handler (A := unit) env sig st)) = Exited 0
    /\ called OpStopWatching
         (new_events st (fst (signal_handler (A := unit) env sig st))) = false
    /\ (forall s,
          logging_ok env = true ->
          db_new env = Interrupted s
          \/ (database_ok env = true /\ watcher_new env = Interrupted s) ->
          outcome_of env = Exited 0
          /\ called OpStopWatching (events env) = false
          /\ error_logged (events env) = false).
Proof.
  intros env sig [w c tr] Hw. cbn in Hw. subst w.
  repeat split.
  - unfold new_events. run_py. rewrite skipn_past. reflexivity.
  - pin; split_env env; subst; evaluate; reflexivity.
  - pin; split_env env; subst; evaluate; reflexivity.
  - pin; split_env env; subst; evaluate; reflexivity.
Qed.

Lemma signal_handler_without_watcher_witness :
  exit_status (snd (signal_handler (A := unit) (smooth []) (Some SIGTERM)
                      initial)) = Exited 0.
Proof.
  destruct (signal_handler_without_watcher (smooth []) (Some SIGTERM) initial)
    as (_ & Hexit & _); [reflexivity|].
  exact Hexit.
Defined.


(** ** Entering the try statement and the idle loop *)

Lemma main_enters_try env :
  logging_ok env = true ->
  main env initial = try_except (main_try env) (main_except env) (ready env)
  /\ watcher (ready env) = None
  /\ db_connected (ready env) = false.
Proof.
  intros Hlog. pin; split_env env; subst; repeat split.
Qed.

Lemma startup_reaches_loop env :
  startup_ok env = true ->
  main_startup env (ready env) = (started env, Ret tt)
  /\ watcher (started env) = Some watching
  /\ db_connected (started env) = false
  /\ exists pre : list event,
       trace (started env)
       = pre ++ [Call OpSetupFolders; Done OpSetupFolders;
                 Call OpProcessExistingFiles; Done OpProcessExistingFiles;
                 Call OpStartWatching; Done OpStartWatching;
                 Log INFO "Folder watcher is running. Press Ctrl+C to stop."]
       /\ called OpSetupFolders pre = false
       /\ called OpProcessExistingFiles pre = false
       /\ called OpStartWatching pre = false.
Proof.
  intros Hok. pin; split_env env; subst; repeat split.
  all: match goal with
       | |- exists pre, ?t = _ /\ _ =>
           exists (firstn (List.length t - 7) t)
       end.
  all: repeat split.
Qed.

Lemma main_from_loop env :
  startup_ok env = true ->
  main env initial
  = try_except (idle_loop env (sleeps env)) (main_except env) (started env).
Proof.
  intros Hok.
  destruct (startup_reaches_loop env Hok) as [Hrun _].
  apply startup_ok_inv in Hok as [Hlog _].
  destruct (main_enters_try env Hlog) as [-> _].
  unfold main_try, try_except, bind. rewrite Hrun. reflexivity.
Qed.

Lemma idle_loop_quiet {A} env n rest st :
  idle_loop (A := A) env (repeat quiet n ++ rest) st
  = idle_loop env rest (slept n st).
Proof.
  revert st. induction n as [|n IH]; intros st; [reflexivity|].
  cbn [repeat app slept]. rewrite <- IH. reflexivity.
Qed.

Lemma slept_facts n st :
  watcher (slept n st) = watcher st
  /\ db_connected (slept n st) = db_connected st
  /\ exists post,
       trace (slept n st) = trace st ++ post
       /\ forallb idle_only post = true.
Proof.
  revert st. induction n as [|n IH]; intros st.
  - repeat split. exists []. now rewrite app_nil_r.
  - destruct (IH (emit (Done OpSleep) (emit (Call OpSleep) st)))
      as (Hw & Hc & post & Ht & Hidle).
    cbn [slept]. repeat split; [exact Hw | exact Hc |].
    exists (Call OpSleep :: Done OpSleep :: post). split.
    + rewrite Ht. cbn. now repeat rewrite <- app_assoc.
    + exact Hidle.
Qed.

Lemma guarded_quiet_tick env rest st :
  try_except (idle_loop env (quiet :: rest)) (main_except env) st
  = try_except (idle_loop env rest) (main_except env)
      (emit (Done OpSleep) (emit (Call OpSleep) st)).
Proof. reflexivity. Qed.

(** From the moment the loop is entered the main thread only sleeps, until
    a sleep is cut short; what follows is the shutdown. *)
Lemma guarded_loop_shape env ticks :
  forall st,
    let p := try_except (idle_loop env ticks) (main_except env) st in
    (exists post,
       trace (fst p) = trace st ++ post /\ forallb idle_only post = true)
    /\ (exit_status (snd p) = Running <-> forallb is_quiet ticks = true).
Proof.
  induction ticks as [|t rest IH]; intros st.
  - cbn. split; [|tauto]. exists []. now rewrite app_nil_r.
  - destruct t as [[[]|e]|s].
    + fold quiet. cbv zeta. rewrite guarded_quiet_tick.
      destruct (IH (emit (Done OpSleep) (emit (Call OpSleep) st)))
        as [(post & Ht & Hidle) Hrun].
      split; [|exact Hrun].
      exists (Call OpSleep :: Done OpSleep :: post). split; [|exact Hidle].
      rewrite Ht. cbn. now repeat rewrite <- app_assoc.
    + destruct st as [w c tr]. split_env env.
      destruct e as [code| |cls msg]; cbv zeta; run_py; repeat branch_py.
      all: repeat rewrite <- app_assoc.
      all: split; [eexists; split; [reflexivity | reflexivity]
                  | split; discriminate].
    + destruct st as [w c tr]. split_env env.
      cbv zeta; run_py; repeat branch_py.
      all: repeat rewrite <- app_assoc.
      all: split; [eexists; split; [reflexivity | reflexivity]
                  | split; discriminate].
Qed.

(** ** Startup order, idle wait and shutdown *)

Lemma idle_only_not_called o post :
  forallb idle_only post = true ->
  per_file_or_startup o = true ->
  called o post = false.
Proof.
  intros Hidle Ho. unfold called.
  induction post as [|e post IH]; [reflexivity|].
  cbn [forallb] in Hidle. apply andb_true_iff in Hidle as [He Hidle].
  cbn [existsb]. rewrite (IH Hidle), orb_false_r.
  destruct e as [l m|s|o'|o'|o' e|s]; try reflexivity.
  destruct o, o'; try reflexivity; discriminate.
Qed.

(** C2: on a successful startup folder setup completes, then the sweep
    of the existing files runs to completion, and only then watching begins;
    none of the three was called earlier, and after watching has begun the
    sweep is never called again. *)
Theorem startup_order :
  forall env,
    startup_ok env = true ->
    exists pre post : list event,
      events env
      = pre ++ [Call OpSetupFolders; Done OpSetupFolders;
                Call OpProcessExistingFiles; Done OpProcessExistingFiles;
                Call OpStartWatching; Done OpStartWatching] ++ post
      /\ called OpSetupFolders pre = false
      /\ called OpProcessExistingFiles pre = false
      /\ called OpStartWatching pre = false
      /\ called OpSetupFolders post = false
      /\ called OpProcessExistingFiles post = false
      /\ called OpStartWatching post = false.
Proof.
  intros env Hok.
  destruct (startup_reaches_loop env Hok)
    as (_ & _ & _ & pre & Hpre & Hsf & Hpe & Hsw).
  destruct (guarded_loop_shape env (sleeps env) (started env))
    as [(post & Hpost & Hidle) _].
  unfold events, final, run. rewrite (main_from_loop env Hok).
  destruct (try_except (idle_loop env (sleeps env)) (main_except env)
              (started env)) as [st r] eqn:Hloop.
  cbn in Hpost |- *. rewrite Hpost, Hpre.
  exists pre,
    (Log INFO "Folder watcher is running. Press Ctrl+C to stop." :: post).
  split; [now repeat rewrite <- app_assoc|].
  repeat split; try assumption.
  all: apply (idle_only_not_called _ (_ :: post)); [exact Hidle | reflexivity].
Qed.

Lemma startup_order_witness :
  exists pre post : list event,
    events (smooth [quiet; Interrupted SIGINT])
    = pre ++ [Call OpSetupFolders; Done OpSetupFolders;
              Call OpProcessExistingFiles; Done OpProcessExistingFiles;
              Call OpStartWatching; Done OpStartWatching] ++ post.
Proof.
  destruct (startup_order (smooth [quiet; Interrupted SIGINT]))
    as (pre & post & Hev & _); [reflexivity|].
  exists pre, post. exact Hev.
Defined.


(** C7: once [start_watching] has returned the main thread only logs,
    sleeps and, at the end, runs the shutdown: no call into the database
    manager, the folder setup or the sweep; and it leaves the idle wait
    exactly when a sleep does not return, that is on a signal or an
    exception. *)
Theorem main_thread_only_idles :
  forall env,
    startup_ok env = true ->
    (exists pre post : list event,
       events env = pre ++ [Done OpStartWatching] ++ post
       /\ called OpStartWatching post = false
       /\ forallb idle_only post = true)
    /\ (outcome_of env = Running <-> forallb is_quiet (sleeps env) = true).
Proof.
  intros env Hok.
  destruct (startup_reaches_loop env Hok)
    as (_ & _ & _ & pre & Hpre & _).
  destruct (guarded_loop_shape env (sleeps env) (started env))
    as [(post & Hpost & Hidle) Hrun].
  unfold outcome_of, events, final, run. rewrite (main_from_loop env Hok).
  destruct (try_except (idle_loop env (sleeps env)) (main_except env)
              (started env)) as [st r] eqn:Hloop.
  cbn in Hpost, Hrun |- *. split; [|exact Hrun].
  exists (pre ++ [Call OpSetupFolders; Done OpSetupFolders;
                  Call OpProcessExistingFiles; Done OpProcessExistingFiles;
                  Call OpStartWatching]),
    (Log INFO "Folder watcher is running. Press Ctrl+C to stop." :: post).
  rewrite Hpost, Hpre. repeat split.
  - now repeat rewrite <- app_assoc.
  - apply (idle_only_not_called _ (_ :: post)); [exact Hidle | reflexivity].
  - exact Hidle.
Qed.

Lemma main_thread_only_idles_witness :
  outcome_of (smooth [quiet; quiet; quiet]) = Running.
Proof.
  destruct (main_thread_only_idles (smooth [quiet; quiet; quiet]))
    as [_ Hrun]; [reflexivity|].
  apply Hrun. reflexivity.
Defined.








(** ** The except clauses of main *)

(** C10, as amended: whatever step of the [try] block an [Exception]
    escapes from, during startup or in the idle loop, [main] logs it as an
    unexpected error and the process exits with status 1.  A
    [KeyboardInterrupt] that escapes from the [try] block is logged and
    handed to [signal_handler]: the process exits with status 0 when no
    watcher is bound yet or [stop_watching] returns, and when
    [stop_watching] raises an [Exception] there, that exception leaves
    [main] uncaught, with status 1 and no error line. *)
Theorem main_exception_policy :
  forall env st' e,
    logging_ok env = true ->
    main_try env (ready env) = (st', Raise e) ->
    (forall cls msg,
       e = Exception cls msg ->
       outcome_of env = Exited 1
       /\ events env
          = trace st' ++ [Log ERROR ("Unexpected error: " ++ msg)%string])
    /\ (e = KeyboardInterrupt ->
        run env
        = (let (st, r) :=
             signal_handler env None
               (emit (Log INFO "Keyboard interrupt received") st') in
           (st, exit_status r))
        /\ (watcher st' = None \/ returned (stop_watching env) = true ->
            outcome_of env = Exited 0
            /\ exists rest : list event,
                 events env
                 = trace st'
                   ++ [Log INFO "Keyboard interrupt received";
                       Log INFO "Shutdown signal received, stopping folder watcher..."]
                   ++ rest
                 /\ forallb idle_only rest = true)
        /\ (forall cls msg,
              watcher st' <> None ->
              stop_watching env = Raises (Exception cls msg) ->
              outcome_of env = Exited 1
              /\ events env
                 = trace st'
                   ++ [Log INFO "Keyboard interrupt received";
                       Log INFO "Shutdown signal received, stopping folder watcher...";
                       Call OpStopWatching;
                       Failed OpStopWatching (Exception cls msg)])).
Proof.
  intros env st' e Hlog Htry.
  destruct (main_enters_try env Hlog) as (Hmain & _).
  unfold outcome_of, events, final, run. rewrite Hmain.
  unfold try_except. rewrite Htry. clear Hmain Htry Hlog.
  destruct st' as [w c tr]. split.
  - intros cls msg ->. run_py. split; reflexivity.
  - intros ->. split; [reflexivity|]. split.
    + intros [Hw|Hstop].
      * cbn in Hw. subst w. run_py. repeat rewrite <- app_assoc.
        split; [reflexivity | eexists; split; reflexivity].
      * apply returned_inv in Hstop. split_env env. subst stw. run_py.
        destruct w; run_py; repeat rewrite <- app_assoc.
        all: split; [reflexivity | eexists; split; reflexivity].
    + intros cls msg Hw Hstop. split_env env. subst stw. cbn in Hw.
      destruct w as [w|]; [|now contradiction Hw].
      run_py. repeat rewrite <- app_assoc. split; reflexivity.
Qed.

Lemma main_exception_policy_witness :
  outcome_of read_only = Exited 1.
Proof.
  destruct (main_exception_policy read_only
              (fst (main_try read_only (ready read_only)))
              (Exception IOError "permission denied"))
    as [Hexc _]; [reflexivity | reflexivity |].
  destruct (Hexc IOError "permission denied" eq_refl) as [Hout _].
  exact Hout.
Defined.

(** C10, as stated, fails twice over.  An [Exception] raised by
    [setup_logging] is in [main] but before its [try] statement: the status
    is 1 and nothing is logged.  And a [KeyboardInterrupt] in the idle loop
    ends in status 1 when [stop_watching] raises inside the handler. *)
Lemma literal_exception_policy_fails :
  ~ literal_exception_policy no_log_dir
  /\ ~ literal_exception_policy (stubborn [Completes (Raises KeyboardInterrupt)]).
Proof.
  split.
  - intros [Hexc _].
    destruct (Hexc OpMakedirs IOError "permission denied") as [Hlog _].
    + vm_compute. auto 10.
    + vm_compute in Hlog. discriminate Hlog.
  - intros [_ Hki].
    assert (Hout : outcome_of (stubborn [Completes (Raises KeyboardInterrupt)])
                   = Exited 0).
    { apply (Hki OpSleep). vm_compute. auto 40. }
    vm_compute in Hout. discriminate Hout.
Qed.

(** * The ingestion pipeline: ledger and isolation *)

Section PipelineProofs.

Import Pipeline.

Variable parse : string -> parse_error + list record.
Variable fingerprint : string -> N.
Variable persist : nat -> option string.

Local Abbreviation handle := (handle_file parse fingerprint persist).
Local Abbreviation fp_of := (fingerprint_of fingerprint).

Lemma about_refl p fp o t : about p fp (mkEntry p fp o t) = true.
Proof. unfold about. cbn. now rewrite String.eqb_refl, N.eqb_refl. Qed.

Lemma from_file_refl p fp recs : from_file p fp (mkBatch p fp recs) = true.
Proof. unfold from_file. cbn. now rewrite String.eqb_refl, N.eqb_refl. Qed.

Lemma should_process_iff l p fp :
  should_process l p fp = true <-> processed_entries l p fp = [].
Proof.
  unfold should_process, processed_entries.
  induction l as [|e l IH]; cbn; [tauto|].
  destruct (about p fp e && is_processed (e_outcome e)); cbn.
  - split; discriminate.
  - exact IH.
Qed.

(** What a submission does, case by case. *)
Lemma handle_skips st f :
  should_process (ledger st) (path f) (fp_of f) = false ->
  handle st f = st.
Proof. intros H. unfold handle_file. now rewrite H. Qed.

Lemma handle_commits st f recs :
  should_process (ledger st) (path f) (fp_of f) = true ->
  parse (content f) = inr recs ->
  persist (writes st) = None ->
  handle st f
  = {| ledger := ledger st ++ [mkEntry (path f) (fp_of f) processed (clock st)];
       storage := storage st ++ [mkBatch (path f) (fp_of f) recs];
       clock := S (clock st);
       writes := S (writes st);
       errors := errors st |}.
Proof.
  intros Hs Hp Hw. unfold handle_file, ingest, upsert_records.
  now rewrite Hs, Hp, Hw.
Qed.






(** The ledger invariant is kept by every submission. *)
Lemma handle_keeps_ledger_ok st f :
  ledger_ok (ledger st) -> ledger_ok (ledger (handle st f)).
Proof.
  intros Hok p fp.
  destruct (should_process (ledger st) (path f) (fp_of f)) eqn:Hs.
  - unfold handle_file, ingest, upsert_records. rewrite Hs.
    destruct (parse (content f)) as [pe|recs];
      [|destruct (persist (writes st)) as [why|]]; cbn;
      unfold processed_entries; rewrite filter_app, length_app; cbn.
    + rewrite andb_false_r. cbn. rewrite Nat.add_0_r. apply Hok.
    + rewrite andb_false_r. cbn. rewrite Nat.add_0_r. apply Hok.
    + rewrite andb_true_r.
      destruct (about p fp (mkEntry (path f) (fp_of f) processed (clock st)))
        eqn:Hab; cbn; [|rewrite Nat.add_0_r; apply Hok].
      unfold about in Hab. cbn in Hab.
      apply andb_true_iff in Hab as [Hp Hfp].
      apply String.eqb_eq in Hp. apply N.eqb_eq in Hfp. subst p fp.
      apply should_process_iff in Hs. unfold processed_entries in Hs.
      rewrite Hs. reflexivity.
  - rewrite (handle_skips st f Hs). apply Hok.
Qed.

(** C5, as amended: for a file that parses and whose batch the storage
    commits, submitted from a state with no processed entry and no committed
    set for its (path, fingerprint) pair, a second submission with the same
    path and content, whatever its modification time, is a no-op, and
    storage then holds exactly one committed set of records and the ledger
    exactly one processed entry for the pair. *)
Theorem resubmission_is_noop :
  forall f f' st recs,
    path f' = path f ->
    content f' = content f ->
    processed_entries (ledger st) (path f) (fp_of f) = [] ->
    committed_sets (storage st) (path f) (fp_of f) = [] ->
    parse (content f) = inr recs ->
    persist (writes st) = None ->
    let st1 := submit parse fingerprint persist f st in
    let st2 := submit parse fingerprint persist f' st1 in
    idempotent_on parse fingerprint persist f f' st
    /\ committed_sets (storage st2) (path f) (fp_of f)
       = [mkBatch (path f) (fp_of f) recs]
    /\ processed_entries (ledger st2) (path f) (fp_of f)
       = [mkEntry (path f) (fp_of f) processed (clock st)].
Proof.
  intros f f' st recs Hpath Hcontent Hfresh Hnone Hparse Hwrite st1 st2.
  assert (Hs : should_process (ledger st) (path f) (fp_of f) = true)
    by now apply should_process_iff.
  assert (H1 : st1
               = {| ledger := ledger st
                              ++ [mkEntry (path f) (fp_of f) processed (clock st)];
                    storage := storage st ++ [mkBatch (path f) (fp_of f) recs];
                    clock := S (clock st);
                    writes := S (writes st);
                    errors := errors st |})
    by now apply handle_commits.
  assert (Hentries : processed_entries (ledger st1) (path f) (fp_of f)
                     = [mkEntry (path f) (fp_of f) processed (clock st)]).
  { rewrite H1. cbn. unfold processed_entries in *.
    rewrite filter_app, Hfresh. cbn. now rewrite about_refl. }
  assert (Hsets : committed_sets (storage st1) (path f) (fp_of f)
                  = [mkBatch (path f) (fp_of f) recs]).
  { rewrite H1. cbn. unfold committed_sets in *.
    rewrite filter_app, Hnone. cbn. now rewrite from_file_refl. }
  assert (H2 : st2 = st1).
  { apply handle_skips. unfold fingerprint_of. rewrite Hpath, Hcontent.
    fold (fp_of f).
    destruct (should_process (ledger st1) (path f) (fp_of f)) eqn:Hagain;
      [|reflexivity].
    apply should_process_iff in Hagain. rewrite Hagain in Hentries.
    discriminate. }
  unfold idempotent_on. fold st1. fold st2. rewrite H2, Hentries, Hsets.
  repeat split.
Qed.


End PipelineProofs.

Lemma resubmission_is_noop_witness :
  Pipeline.idempotent_on Pipeline.one_line_parser Pipeline.length_fingerprint
    Pipeline.always_commit Pipeline.good_file Pipeline.touched_file
    Pipeline.empty.
Proof.
  destruct (resubmission_is_noop Pipeline.one_line_parser
              Pipeline.length_fingerprint Pipeline.always_commit
              Pipeline.good_file Pipeline.touched_file Pipeline.empty
              [[("line", "alice")]])
    as [Hidem _];
    [reflexivity | reflexivity | reflexivity | reflexivity | reflexivity
    | reflexivity |].
  exact Hidem.
Defined.


(** C5, as stated, fails on a malformed file: both submissions end in a
    parse error, so no set of records is committed and the ledger holds two
    failed entries and no processed one. *)
Lemma malformed_file_is_never_processed :
  ~ (forall parse fingerprint persist f,
       Pipeline.idempotent_on parse fingerprint persist f f Pipeline.empty).
Proof.
  intros H.
  destruct (H Pipeline.one_line_parser Pipeline.length_fingerprint
              Pipeline.always_commit Pipeline.bad_file) as [Hsets _].
  vm_compute in Hsets. discriminate Hsets.
Qed.

(** * Further properties of main.py *)

(** ** setup_logging *)

(** X1: [setup_logging] creates the log directory exactly when [Config()]
    and the read of its [LOG_FILE] went through and the directory is
    missing.  The configuration of logging, which is the level lookup, the
    two handlers and [logging.basicConfig] taken together, is not begun
    when one of them raised, and it is completed exactly when nothing in
    [setup_logging] raised. *)
Theorem makedirs_only_when_missing :
  forall env st,
    let tr := new_events st (fst (setup_logging env st)) in
    called OpMakedirs tr
    = returned (config_new env) && negb (log_dir_exists env)
    /\ (called OpBasicConfig tr = true ->
        returned (config_new env)
        && (log_dir_exists env || returned (os_makedirs env)) = true)
    /\ finished OpBasicConfig tr = logging_ok env.
Proof.
  intros env [w c tr0]. split_env env. unfold new_events, logging_ok.
  run_py.
  destruct cfg as [[]|e]; run_py; [destruct dir; run_py|].
  2: destruct mk as [[]|e]; run_py.
  all: repeat branch_py.
  all: repeat rewrite <- app_assoc; rewrite skipn_past.
  all: repeat split; try reflexivity; try (intros H; exact H).
Qed.

(** X2: An [Exception] raised by [setup_logging] is outside the [try] statement
    of [main]: the process ends with status 1 and has neither logged
    anything, nor installed a signal handler, nor touched the database. *)
Theorem logging_failure_is_unlogged :
  forall env,
    logging_fails env = true ->
    outcome_of env = Exited 1
    /\ anything_logged (events env) = false
    /\ handler_installed (events env) = false
    /\ called OpDbNew (events env) = false.
Proof.
  intros env H. split_env env. unfold logging_fails, logging_ok in H.
  cbn in H.
  destruct cfg as [[]|[code| |cls msg]]; cbn in H; try discriminate H.
  - destruct dir; cbn in H.
    + destruct bc as [[]|[code| |cls msg]]; cbn in H;
        try discriminate H; try (rewrite andb_false_r in H; discriminate H).
      repeat split.
    + destruct mk as [[]|[code| |cls msg]]; cbn in H; try discriminate H.
      * destruct bc as [[]|[code| |cls msg]]; cbn in H; try discriminate H.
        repeat split.
      * repeat split.
  - repeat split.
Qed.

Lemma logging_failure_is_unlogged_witness :
  outcome_of no_log_dir = Exited 1
  /\ anything_logged (events no_log_dir) = false.
Proof.
  destruct (logging_failure_is_unlogged no_log_dir) as (Hout & Hlog & _);
    [reflexivity|].
  split; [exact Hout | exact Hlog].
Defined.

(** ** initialize_database *)

(** X3: The value [initialize_database] returns: with [disconnect()] returning
    and no signal on the way, it is true exactly when [connect()] and
    [create_all_tables()] both returned a true value; a false value or an
    [Exception] from either gives False, and no [Exception] escapes. *)
Theorem initialize_database_result :
  forall env st,
    completed (db_new env) = true ->
    ordinary (db_connect env) = true ->
    ordinary (db_create_all_tables env) = true ->
    completed (db_disconnect env) = true ->
    snd (initialize_database env st)
    = Ret (yields (db_connect env) true
           && yields (db_create_all_tables env) true).
Proof.
  intros env [w c tr] Hnew Hcon Htab Hdis. pin.
  split_env env; subst.
  destruct dbc as [[[]|[code| |cls msg]]|s]; try discriminate Hcon.
  all: destruct dbt as [[[]|[code'| |cls' msg']]|s']; try discriminate Htab.
  all: reflexivity.
Qed.

Lemma initialize_database_result_witness :
  snd (initialize_database no_schema initial) = Ret false.
Proof.
  exact (initialize_database_result no_schema initial
           eq_refl eq_refl eq_refl eq_refl).
Defined.

(** X4: [create_all_tables()] is called exactly when [connect()] returned a
    true value: never on a closed or failed connection. *)
Theorem tables_only_after_connect :
  forall env st,
    completed (db_new env) = true ->
    called OpCreateAllTables
      (new_events st (fst (initialize_database env st)))
    = yields (db_connect env) true.
Proof.
  intros env [w c tr] Hnew. pin. split_env env. subst dbn.
  unfold new_events. run_py.
  repeat branch_py.
  all: repeat rewrite <- app_assoc; rewrite skipn_past; reflexivity.
Qed.

Lemma tables_only_after_connect_witness :
  called OpCreateAllTables
    (new_events initial (fst (initialize_database refused initial))) = false.
Proof.
  exact (tables_only_after_connect refused initial eq_refl).
Defined.

(** ** Shutdown when stop_watching fails *)

(** X6: When [stop_watching] raises an [Exception] inside the handler of a
    signal that arrived in the idle loop, the exception lands in the
    [except Exception] clause of [main]: it is logged as an unexpected error
    and the process exits with status 1, not 0. *)
Theorem failing_stop_on_signal_exits_1 :
  forall env s n rest cls msg,
    startup_ok env = true ->
    sleeps env = repeat quiet n ++ Interrupted s :: rest ->
    stop_watching env = Raises (Exception cls msg) ->
    outcome_of env = Exited 1
    /\ exists pre : list event,
         events env
         = pre ++ [Signal s;
                   Log INFO "Shutdown signal received, stopping folder watcher...";
                   Call OpStopWatching;
                   Failed OpStopWatching (Exception cls msg);
                   Log ERROR ("Unexpected error: " ++ msg)%string].
Proof.
  intros env s n rest cls msg Hok Hsl Hstop.
  destruct (startup_reaches_loop env Hok) as (_ & Hw & Hc & _).
  unfold outcome_of, events, final, run. rewrite (main_from_loop env Hok).
  rewrite Hsl. unfold try_except. rewrite idle_loop_quiet.
  destruct (slept_facts n (started env)) as (Hw' & Hc' & _).
  rewrite Hw in Hw'. rewrite Hc in Hc'.
  destruct (slept n (started env)) as [w c tr]. cbn in Hw', Hc'. subst w c.
  split_env env. subst stw. run_py.
  repeat split. exists (tr ++ [Call OpSleep]). now repeat rewrite <- app_assoc.
Qed.

Lemma failing_stop_on_signal_exits_1_witness :
  outcome_of (stubborn [quiet; Interrupted SIGINT]) = Exited 1.
Proof.
  destruct (failing_stop_on_signal_exits_1
              (stubborn [quiet; Interrupted SIGINT]) SIGINT 1 []
              RuntimeError "cannot join thread")
    as (Hout & _); [reflexivity | reflexivity | reflexivity |].
  exact Hout.
Defined.

Lemma slept_logs_nothing n :
  forall st, error_logged (trace (slept n st)) = error_logged (trace st).
Proof.
  induction n as [|n IH]; intros st; [reflexivity|].
  cbn [slept]. rewrite IH. unfold error_logged, emit. cbn [trace].
  rewrite !existsb_app. cbn. now rewrite !orb_false_r.
Qed.

Lemma startup_logs_no_error env :
  startup_ok env = true -> error_logged (trace (started env)) = false.
Proof.
  intros Hok. apply startup_ok_inv in Hok. pin.
  all: split_env env; subst; reflexivity.
Qed.

(** X7: When [stop_watching] raises an [Exception] inside the handler called
    from the [except KeyboardInterrupt] clause, no sibling clause catches
    it: it leaves [main] uncaught, the process ends with status 1 and no
    error line was logged. *)
Theorem failing_stop_on_keyboard_interrupt_escapes :
  forall env n rest cls msg,
    startup_ok env = true ->
    sleeps env = repeat quiet n ++ Completes (Raises KeyboardInterrupt) :: rest ->
    stop_watching env = Raises (Exception cls msg) ->
    snd (main env initial) = Raise (Exception cls msg)
    /\ outcome_of env = Exited 1
    /\ error_logged (events env) = false.
Proof.
  intros env n rest cls msg Hok Hsl Hstop.
  destruct (startup_reaches_loop env Hok) as (_ & Hw & _).
  pose proof (startup_logs_no_error env Hok) as Hquiet.
  rewrite <- (slept_logs_nothing n) in Hquiet.
  unfold outcome_of, events, final, run. rewrite (main_from_loop env Hok).
  rewrite Hsl. unfold try_except. rewrite idle_loop_quiet.
  destruct (slept_facts n (started env)) as (Hw' & _).
  rewrite Hw in Hw'.
  destruct (slept n (started env)) as [w c tr]. cbn in Hw', Hquiet. subst w.
  split_env env. subst stw. run_py.
  repeat split.
  unfold error_logged in *. repeat rewrite existsb_app.
  rewrite Hquiet. reflexivity.
Qed.

Lemma failing_stop_on_keyboard_interrupt_escapes_witness :
  outcome_of (stubborn [Completes (Raises KeyboardInterrupt)]) = Exited 1
  /\ error_logged (events (stubborn [Completes (Raises KeyboardInterrupt)]))
     = false.
Proof.
  destruct (failing_stop_on_keyboard_interrupt_escapes
              (stubborn [Completes (Raises KeyboardInterrupt)]) 0 []
              RuntimeError "cannot join thread")
    as (_ & Hout & Hlog); [reflexivity | reflexivity | reflexivity |].
  split; [exact Hout | exact Hlog].
Defined.

(** ** A signal during startup *)

(** X8: A termination signal that arrives during folder setup, the sweep or
    [start_watching] finds the global [watcher] bound: the handler calls
    [stop_watching] on a watcher whose [start_watching] never returned, and
    with [stop_watching] returning the process exits with status 0 without
    ever entering the idle loop. *)
Theorem signal_during_startup_stops_unstarted_watcher :
  forall env,
    interrupted_after_binding env = true ->
    returned (stop_watching env) = true ->
    outcome_of env = Exited 0
    /\ signalled (events env) = true
    /\ called OpStopWatching (events env) = true
    /\ finished OpStartWatching (events env) = false
    /\ called OpSleep (events env) = false
    /\ error_logged (events env) = false.
Proof.
  intros env Hint Hstop. unfold interrupted_after_binding in Hint.
  apply andb_true_iff in Hint as [Hint Hwhere].
  apply andb_true_iff in Hint as [Hint Hwn].
  apply andb_true_iff in Hint as [Hlog Hdb].
  apply returned_inv in Hstop. pin.
  all: split_env env; subst.
  all: destruct sf as [[[]|e]|s]; try discriminate Hwhere.
  all: try (destruct pe as [[[]|e]|s]; try discriminate Hwhere).
  all: try (destruct sw as [o|s]; try discriminate Hwhere).
  all: repeat split.
Qed.

Lemma signal_during_startup_stops_unstarted_watcher_witness :
  outcome_of interrupted_sweep = Exited 0
  /\ called OpStopWatching (events interrupted_sweep) = true.
Proof.
  destruct (signal_during_startup_stops_unstarted_watcher interrupted_sweep)
    as (Hout & _ & Hstop & _); [reflexivity | reflexivity |].
  split; [exact Hout | exact Hstop].
Defined.

(** ** The process as a whole *)

(** Case analysis on a raised exception or a returned unit the evaluation
    is stuck on. *)
Ltac crack :=
  repeat match goal with
  | |- context [match ?e with _ => _ end] =>
      is_var e;
      match type of e with
      | exn => idtac
      | unit => idtac
      end;
      destruct e; run_py
  end.

(** One more field of the environment; the cases in which the startup has
    failed by now are evaluated to their end. *)
Ltac finish_run tac :=
  repeat first [progress crack | branch_py]; solve [tac].

Tactic Notation "advance" ident(x) "as" simple_intropattern(pat)
  "in" hyp(Hok) "by" tactic(tac) :=
  destruct x as pat; run_py; cbn in Hok; try discriminate Hok;
  try (match type of Hok with false = false => idtac end; finish_run tac).

Lemma failed_startup_ends env :
  startup_ok env = false ->
  exists st e,
    main env initial = (st, Raise e) /\ called OpSleep (trace st) = false.
Proof.
  intros Hok. split_env env.
  unfold startup_ok, logging_ok, database_ok in Hok. cbn in Hok.
  unfold main, initial. run_py.
  advance cfg as [[]|e] in Hok by (eexists; eexists; split; reflexivity).
  advance dir as [|] in Hok by (eexists; eexists; split; reflexivity).
  2: advance mk as [[]|e] in Hok by (eexists; eexists; split; reflexivity).
  all: advance bc as [[]|e] in Hok by (eexists; eexists; split; reflexivity).
  all: advance dbn as [[[]|e]|s] in Hok
         by (eexists; eexists; split; reflexivity).
  all: advance dbc as [[[]|e]|s] in Hok
         by (eexists; eexists; split; reflexivity).
  all: advance dbt as [[[]|e]|s] in Hok
         by (eexists; eexists; split; reflexivity).
  all: advance dbd as [[[]|e]|s] in Hok
         by (eexists; eexists; split; reflexivity).
  all: advance wn as [[[]|e]|s] in Hok
         by (eexists; eexists; split; reflexivity).
  all: advance sf as [[[]|e]|s] in Hok
         by (eexists; eexists; split; reflexivity).
  all: advance pe as [[[]|e]|s] in Hok
         by (eexists; eexists; split; reflexivity).
  all: advance sw as [[[]|e]|s] in Hok
         by (eexists; eexists; split; reflexivity).
Qed.

(** X9: The process is still running exactly when the whole startup went
    through and every sleep so far returned; and [time.sleep] is never
    reached after a startup step that failed or was interrupted. *)
Theorem running_needs_full_startup :
  forall env,
    (outcome_of env = Running
     <-> startup_ok env = true /\ forallb is_quiet (sleeps env) = true)
    /\ (called OpSleep (events env) = true -> startup_ok env = true).
Proof.
  intros env. destruct (startup_ok env) eqn:Hok.
  - split; [|reflexivity].
    destruct (guarded_loop_shape env (sleeps env) (started env)) as [_ Hrun].
    unfold outcome_of, run. rewrite (main_from_loop env Hok).
    destruct (try_except (idle_loop env (sleeps env)) (main_except env)
                (started env)) as [st r].
    cbn in Hrun |- *. rewrite Hrun. tauto.
  - destruct (failed_startup_ends env Hok) as (st & e & Hmain & Hsleep).
    unfold outcome_of, events, final, run. rewrite Hmain. cbn.
    split; [|rewrite Hsleep; discriminate].
    split; [|intros [Habs _]; discriminate Habs].
    destruct e; discriminate.
Qed.








(** X5: An [Exception] raised by [disconnect()] in the [finally] clause
    replaces whatever [initialize_database] was about to return, a
    successful True included: [main] logs it as an unexpected error and the
    process exits with status 1 without creating the watcher. *)
Theorem failing_disconnect_overrides_result :
  forall env cls msg,
    logging_ok env = true ->
    completed (db_new env) = true ->
    ordinary (db_connect env) = true ->
    ordinary (db_create_all_tables env) = true ->
    db_disconnect env = Completes (Raises (Exception cls msg)) ->
    snd (initialize_database env (ready env)) = Raise (Exception cls msg)
    /\ outcome_of env = Exited 1
    /\ In (Log ERROR ("Unexpected error: " ++ msg)%string) (events env)
    /\ called OpWatcherNew (events env) = false.
Proof.
  intros env cls msg Hlog Hnew Hcon Htab Hdis. pin.
  all: split_env env; subst.
  all: destruct dbc as [[[]|[code| |cls' msg']]|s]; try discriminate Hcon.
  all: destruct dbt as [[[]|[code'| |cls'' msg'']]|s'];
    try discriminate Htab.
  all: repeat split.
  all: cbv; repeat (try (left; reflexivity); right).
Qed.

Lemma failing_disconnect_overrides_result_witness :
  outcome_of no_goodbye = Exited 1
  /\ called OpWatcherNew (events no_goodbye) = false.
Proof.
  destruct (failing_disconnect_overrides_result no_goodbye ConnectionError
              "connection lost")
    as (_ & Hout & _ & Hwn);
    [reflexivity | reflexivity | reflexivity | reflexivity | reflexivity |].
  split; [exact Hout | exact Hwn].
Defined.

(** ** Signal handlers come first *)

Lemma handlers_first_installed tr :
  handlers_first true true tr = true.
Proof.
  induction tr as [|e tr IH]; [reflexivity|].
  destruct e as [l m|[]|o|o|o e|s]; cbn; try exact IH.
  now rewrite orb_true_r.
Qed.

Lemma failed_startup_handlers_first env :
  startup_ok env = false ->
  handlers_first false false (events env) = true.
Proof.
  intros Hok. split_env env.
  unfold startup_ok, logging_ok, database_ok in Hok. cbn in Hok.
  unfold events, final, run, main, initial. run_py.
  advance cfg as [[]|e] in Hok by reflexivity.
  advance dir as [|] in Hok by reflexivity.
  2: advance mk as [[]|e] in Hok by reflexivity.
  all: advance bc as [[]|e] in Hok by reflexivity.
  all: advance dbn as [[[]|e]|s] in Hok by reflexivity.
  all: advance dbc as [[[]|e]|s] in Hok by reflexivity.
  all: advance dbt as [[[]|e]|s] in Hok by reflexivity.
  all: advance dbd as [[[]|e]|s] in Hok by reflexivity.
  all: advance wn as [[[]|e]|s] in Hok by reflexivity.
  all: advance sf as [[[]|e]|s] in Hok by reflexivity.
  all: advance pe as [[[]|e]|s] in Hok by reflexivity.
  all: advance sw as [[[]|e]|s] in Hok by reflexivity.
Qed.

(** X11: In every run, whatever fails, both signal handlers are installed
    before the first call into [DatabaseManager] or [FolderWatcher] and
    before the first sleep: from [initialize_database] on, a termination
    signal always reaches [signal_handler]. *)
Theorem handlers_installed_before_guarded_calls :
  forall env, handlers_first false false (events env) = true.
Proof.
  intros env. destruct (startup_ok env) eqn:Hok;
    [|now apply failed_startup_handlers_first].
  destruct (guarded_loop_shape env (sleeps env) (started env))
    as [(post & Hpost & _) _].
  unfold events, final, run. rewrite (main_from_loop env Hok).
  destruct (try_except (idle_loop env (sleeps env)) (main_except env)
              (started env)) as [st r].
  cbn in Hpost |- *. rewrite Hpost. clear Hpost.
  apply startup_ok_inv in Hok. pin.
  all: split_env env; subst.
  all: match goal with
       | |- context [trace (started ?E)] =>
           let t := eval cbv in (trace (started E)) in
           change (trace (started E)) with t
       end.
  all: cbn; apply handlers_first_installed.
Qed.
